(** * Solaar command-line layer: resolution and dispatch

    A shallow embedding of [lib/solaar/cli/__init__.py]: the two resolver
    functions [_find_receiver] and [_find_device], the two handle builders
    [_receivers] and [_receivers_and_devices], and the dispatcher [run],
    followed by the properties of the specification stated over them.

    Conventions.
    - A Python [str] is a [string]; its characters are the code points
      0..255.  On that range [str.lower] acts character by character and
      [int] accepts, as a one-character string, only the digits 0..9.
    - Python integers are unbounded: they are [Z].
    - A generator is modelled by the trace of what its body does when it is
      driven to the end, together with the way it ends. *)

From Stdlib Require Import ZArith List Bool Ascii String DecimalString Lia.
Import ListNotations.

Local Open Scope string_scope.
Local Open Scope Z_scope.

(** ** Python strings *)

Module PyStr.

Definition code (c : ascii) : Z := Z.of_N (N_of_ascii c).

(** [str.lower] on one character: A..Z and the upper-case letters of the
    range 192..222 (the multiplication sign 215 apart) move up by 32. *)
Definition lower_char (c : ascii) : ascii :=
  let n := code c in
  if ((65 <=? n) && (n <=? 90))
     || ((192 <=? n) && (n <=? 222) && negb (n =? 215))
  then ascii_of_N (Z.to_N (n + 32))
  else c.

(** [s.lower()] *)
Fixpoint lower (s : string) : string :=
  match s with
  | EmptyString => EmptyString
  | String c s' => String (lower_char c) (lower s')
  end.

(** [a in b] on strings: [a] occurs in [b] as a substring. *)
Fixpoint contains (a b : string) : bool :=
  prefix a b
  || match b with
     | EmptyString => false
     | String _ b' => contains a b'
     end.

(** [int(s)] for a string [s] of exactly one character [c]: the digit's
    value, or [None] where Python raises [ValueError]. *)
Definition int_of_char (c : ascii) : option Z :=
  let n := code c in
  if (48 <=? n) && (n <=? 57) then Some (n - 48) else None.

(** Truth value of a string: [bool(s)]. *)
Definition truthy (s : string) : bool :=
  match s with
  | EmptyString => false
  | String _ _ => true
  end.

End PyStr.

(** ** Handles of the device-management library

    The classes [Receiver] and [Device] live in [logitech_receiver]; the
    command-line layer uses only the attributes below. *)

(** Modelled from the spec: the class [Device] is not part of this module.
    A device has [serial], [codename], [kind] (kept in its string form, as
    [str(dev.kind)] gives it) and [name]; its [isDevice] is true and, being
    a plain handle, it is true wherever it is not [None]. *)
Record Device : Type := {
  d_serial : string;
  d_codename : string;
  d_kind : string;
  d_name : string
}.

(** Modelled from the spec: the class [Receiver] is not part of this
    module.  A receiver has [name], a nullable [serial], [count()], the
    indexing [r[n]] by slot number that gives a device or [None], and an
    iteration that produces its paired devices; its [isDevice] is false.
    Nothing ties [count()] to what the iteration produces. *)
Record Receiver : Type := {
  r_name : string;
  r_serial : option string;
  r_count : Z;
  r_getitem : Z -> option Device;
  r_iter : list Device
}.

(** An entry of the list the dispatcher builds: a receiver or a directly
    connected device. *)
Inductive handle : Type :=
| H_receiver (r : Receiver)
| H_device (d : Device).

Definition isDevice (h : handle) : bool :=
  match h with
  | H_receiver _ => false
  | H_device _ => true
  end.

Definition h_name (h : handle) : string :=
  match h with
  | H_receiver r => r_name r
  | H_device d => d_name d
  end.

Definition h_serial (h : handle) : option string :=
  match h with
  | H_receiver r => r_serial r
  | H_device d => Some (d_serial d)
  end.

(** ** The resolver *)

Module Resolver.

Import PyStr.

(** A failed [assert], with the line of the statement. *)
Inductive exn : Type :=
| AssertionError (line : Z).

(** *** [_find_receiver] *)

(** The test of the loop: [name in r.name.lower() or
    (r.serial is not None and name == r.serial.lower())]. *)
Definition receiver_matches (name : string) (r : handle) : bool :=
  contains name (lower (h_name r))
  || match h_serial r with
     | None => false
     | Some s => (name =? lower s)%string
     end.

(** [for r in receivers: if ...: return r], falling off the end with
    [None]. *)
Fixpoint find_receiver_loop (receivers : list handle) (name : string)
  : option handle :=
  match receivers with
  | [] => None
  | r :: rest =>
      if receiver_matches name r then Some r
      else find_receiver_loop rest name
  end.

Definition _find_receiver (receivers : list handle) (name : string)
  : exn + option handle :=
  match receivers with
  | [] => inl (AssertionError 143)
  | _ :: _ =>
      if negb (truthy name) then inl (AssertionError 144)
      else inr (find_receiver_loop receivers name)
  end.

(** *** [_find_device] *)

(** What the body of the generator does, in order. *)
Inductive event : Type :=
| GetItem (r : Receiver) (n : Z)   (* [r[number]] *)
| Count (r : Receiver)             (* [r.count()] *)
| Ping (d : Device)                (* [r.ping()] *)
| Examine (d : Device)             (* the scan binds [dev] and tests it *)
| Break                            (* the scan leaves on [not count] *)
| Yield (d : Device).              (* [yield dev] *)

Inductive gen_end : Type :=
| Returned
| Raised (e : exn).

(** The devices a trace yields, in order. *)
Fixpoint yields (t : list event) : list Device :=
  match t with
  | [] => []
  | Yield d :: t' => d :: yields t'
  | _ :: t' => yields t'
  end.

(** The devices a trace examines, in order. *)
Fixpoint examined (t : list event) : list Device :=
  match t with
  | [] => []
  | Examine d :: t' => d :: examined t'
  | _ :: t' => examined t'
  end.

(** The value of [number] after the first block: [None] unless [name] has
    one character that [int] accepts, and then [None] again above 6. *)
Definition slot_number (name : string) : exn + option Z :=
  match name with
  | String c EmptyString =>
      match int_of_char c with
      | None => inr None
      | Some number =>
          if number <? 0 then inl (AssertionError 162)
          else if number >? 6 then inr None
          else inr (Some number)
      end
  | _ => inr None
  end.

(** Truth value of [number]: [None] and [0] are false. *)
Definition number_truthy (number : option Z) : bool :=
  match number with
  | None => false
  | Some n => negb (n =? 0)
  end.

(** The test of the scan. *)
Definition device_matches (name : string) (dev : Device) : bool :=
  (name =? lower (d_serial dev))%string
  || (name =? lower (d_codename dev))%string
  || (name =? lower (d_kind dev))%string
  || contains name (lower (d_name dev)).

(** [for dev in r: ...; count -= 1; if not count: break] *)
Fixpoint scan (name : string) (devs : list Device) (count : Z)
  : list event :=
  match devs with
  | [] => []
  | dev :: rest =>
      Examine dev
      :: (if device_matches name dev then [Yield dev] else [])
      ++ (let count := count - 1 in
          if count =? 0 then [Break] else scan name rest count)
  end.

(** The body of [for r in receivers]. *)
Definition for_body (number : option Z) (name : string) (r : handle)
  : list event :=
  match r with
  | H_receiver rc =>
      (match number with
       | Some n =>
           if number_truthy number then
             GetItem rc n
             :: match r_getitem rc n with
                | Some dev => [Yield dev]
                | None => []
                end
           else []
       | None => []
       end)
      ++ Count rc :: scan name (r_iter rc) (r_count rc)
  | H_device d => Ping d :: scan name [d] 1
  end.

Definition _find_device (receivers : list handle) (name : string)
  : list event * gen_end :=
  match receivers with
  | [] => ([], Raised (AssertionError 152))
  | _ :: _ =>
      if negb (truthy name) then ([], Raised (AssertionError 153))
      else
        match slot_number name with
        | inl e => ([], Raised e)
        | inr number => (flat_map (for_body number name) receivers, Returned)
        end
  end.

End Resolver.

(** ** Enumeration, construction and dispatch *)

Module Dispatcher.

Import PyStr.

Definition nl : string := String (ascii_of_nat 10) EmptyString.
Definition dquote : string := String (ascii_of_nat 34) EmptyString.

(** [str(n)] for an integer. *)
Definition str_of_int (n : Z) : string :=
  NilZero.string_of_int (Z.to_int n).

(** *** The parser made by [_create_parser]

    The attributes its sub-parsers can put on the parsed namespace: the
    positional arguments and the default [action]. *)
Inductive dest : Type :=
| D_action | D_device | D_receiver | D_profiles
| D_setting | D_value_key | D_extra_subkey | D_extra2.

Definition dest_name (d : dest) : string :=
  match d with
  | D_action => "action"
  | D_device => "device"
  | D_receiver => "receiver"
  | D_profiles => "profiles"
  | D_setting => "setting"
  | D_value_key => "value_key"
  | D_extra_subkey => "extra_subkey"
  | D_extra2 => "extra2"
  end.

Definition dest_eqb (a b : dest) : bool :=
  (dest_name a =? dest_name b)%string.

(** An [argparse.Namespace]: the attributes that are set, with their
    values ([None] for an optional positional left out). *)
Definition Namespace : Type := list (dest * option string).

(** [key in args] *)
Definition ns_in (key : string) (args : Namespace) : bool :=
  existsb (fun a => (dest_name (fst a) =? key)%string) args.

(** [args.action], or [None] where the attribute is missing. *)
Definition ns_action (args : Namespace) : option string :=
  match find (fun a => dest_eqb (fst a) D_action) args with
  | Some (_, Some v) => Some v
  | _ => None
  end.

(** [actions], the keys of [subparsers.choices]. *)
Definition actions : list string :=
  ["show"; "probe"; "profiles"; "config"; "pair"; "unpair"].

(** [sys.exit(arg)]: an integer status, or a text that the interpreter
    writes to the error stream before it exits with status 1. *)
Inductive exit_code : Type :=
| Status (n : Z)
| Message (msg : string).

(** What [parse_args] does: it gives a namespace, or it writes to the
    error stream and leaves through [sys.exit]. *)
Inductive parse_outcome : Type :=
| Parsed (args : Namespace)
| ParserExit (err : string) (code : exit_code).

(** A record of [base.receivers()] or [base.receivers_and_devices()]. *)
Record dev_info : Type := {
  path : string;
  di_isDevice : bool
}.

(** What a construction call does: it returns a handle or [None], or it
    raises an exception [e] whose [str(e)] is [msg]. *)
Inductive built (A : Type) : Type :=
| Constructed (x : option A)
| Fails (msg : string).
Arguments Constructed {A} x.
Arguments Fails {A} msg.

(** What importing and running an action module does. *)
Inductive action_outcome : Type :=
| ActionReturns
| ActionAssertion (file : string) (line : Z)  (* last frame of the traceback *)
| ActionException (trace : string)           (* its [format_exc()] *)
| ActionExit (code : exit_code).

(** Everything outside this module that [run] depends on. *)
Record env : Type := {
  NAME : string;
  sys_argv : list string;
  parse_args : list string -> parse_outcome;
  usage : string;
  base_receivers : list dev_info;
  base_receivers_and_devices : list dev_info;
  create_receiver : dev_info -> built Receiver;
  create_device : dev_info -> built Device;
  action_run : string -> list handle -> Namespace -> action_outcome;
  frames : string
}.

(** How a handle generator ends. *)
Inductive build_end : Type :=
| Finished
| Exited (code : exit_code).

(** [if dev_path is not None and dev_path != dev_info.path: continue] *)
Definition filtered_out (dev_path : option string) (dev_info : dev_info)
  : bool :=
  match dev_path with
  | None => false
  | Some p => negb (p =? path dev_info)%string
  end.

Definition error_exit (E : env) (text : string) : exit_code :=
  Message (lower (NAME E) ++ ": error: " ++ text).

Definition push (h : option handle) (g : list handle * build_end)
  : list handle * build_end :=
  match h with
  | Some h => (h :: fst g, snd g)
  | None => g
  end.

(** The loop of [_receivers] over the records still to come: the handles
    it yields and how it ends. *)
Fixpoint receivers_loop (E : env) (infos : list dev_info)
  (dev_path : option string) : list handle * build_end :=
  match infos with
  | [] => ([], Finished)
  | dev_info :: rest =>
      if filtered_out dev_path dev_info
      then receivers_loop E rest dev_path
      else
        match create_receiver E dev_info with
        | Constructed r =>
            push (option_map H_receiver r) (receivers_loop E rest dev_path)
        | Fails e => ([], Exited (error_exit E e))
        end
  end.

Definition _receivers (E : env) (dev_path : option string)
  : list handle * build_end :=
  receivers_loop E (base_receivers E) dev_path.

(** The loop of [_receivers_and_devices]. *)
Fixpoint receivers_and_devices_loop (E : env) (infos : list dev_info)
  (dev_path : option string) : list handle * build_end :=
  match infos with
  | [] => ([], Finished)
  | dev_info :: rest =>
      if filtered_out dev_path dev_info
      then receivers_and_devices_loop E rest dev_path
      else
        match
          (if di_isDevice dev_info
           then match create_device E dev_info with
                | Constructed d => Constructed (option_map H_device d)
                | Fails e => Fails e
                end
           else match create_receiver E dev_info with
                | Constructed d => Constructed (option_map H_receiver d)
                | Fails e => Fails e
                end)
        with
        | Constructed d =>
            push d (receivers_and_devices_loop E rest dev_path)
        | Fails e => ([], Exited (error_exit E e))
        end
  end.

Definition _receivers_and_devices (E : env) (dev_path : option string)
  : list handle * build_end :=
  receivers_and_devices_loop E (base_receivers_and_devices E) dev_path.

(** [list(g)]: the handles, unless the generator left through
    [sys.exit]. *)
Definition list_of (g : list handle * build_end) : exit_code + list handle :=
  match snd g with
  | Finished => inr (fst g)
  | Exited code => inl code
  end.

(** How a call of [run] ends. *)
Inductive outcome : Type :=
| Returns
| SystemExit (code : exit_code)
| Uncaught (exception : string).

(** What [run] wrote to the error stream, and how it ended. *)
Definition result : Type := string * outcome.

Definition no_device_message : string :=
  "No supported device found. Use " ++ dquote ++ "lsusb" ++ dquote
  ++ " and " ++ dquote ++ "bluetoothctl devices Connected" ++ dquote
  ++ " to list connected devices.".

(** [format_exc()] for an exception of class [cls] and text [msg] raised
    in [run]: the header, the stack frames, then the exception line. *)
Definition format_exc (E : env) (cls msg : string) : string :=
  "Traceback (most recent call last):" ++ nl
  ++ frames E ++ cls ++ ": " ++ msg ++ nl.

(** The first block of [run]: the action and the parsed arguments, or the
    way the call ends there. *)
Definition parse_stage (E : env) (cli_args : option (list string))
  : result + (string * Namespace) :=
  match cli_args with
  | Some (action :: rest) =>
      match parse_args E (action :: rest) with
      | ParserExit err code => inl (err, SystemExit code)
      | Parsed args => inr (action, args)
      end
  | _ =>
      match parse_args E (sys_argv E) with
      | ParserExit err code => inl (err, SystemExit code)
      | Parsed args =>
          if negb (ns_in "cmd" args) then
            inl (usage E ++ lower (NAME E) ++ ": error: too few arguments"
                 ++ nl,
                 SystemExit (Status 2))
          else
            match ns_action args with
            | Some action => inr (action, args)
            | None => inl (EmptyString, Uncaught "AttributeError")
            end
      end
  end.

(** [list(_receivers_and_devices(hidraw_path))] or
    [list(_receivers(hidraw_path))], by the action. *)
Definition build (E : env) (action : string) (hidraw_path : option string)
  : exit_code + list handle :=
  if ((action =? "show") || (action =? "probe")
      || (action =? "config") || (action =? "profiles"))%string
  then list_of (_receivers_and_devices E hidraw_path)
  else list_of (_receivers E hidraw_path).

(** The [try] block of [run] with its two handlers. *)
Definition try_block (E : env) (action : string) (args : Namespace)
  (hidraw_path : option string) : outcome :=
  match build E action hidraw_path with
  | inl code => SystemExit code
  | inr c =>
      match c with
      | [] =>
          SystemExit
            (error_exit E (format_exc E "Exception" no_device_message))
      | _ :: _ =>
          match action_run E action c args with
          | ActionReturns => Returns
          | ActionAssertion file line =>
              SystemExit
                (Message (lower (NAME E) ++ ": assertion failed: " ++ file
                          ++ " line " ++ str_of_int line))
          | ActionException trace => SystemExit (error_exit E trace)
          | ActionExit code => SystemExit code
          end
      end
  end.

Definition run (E : env) (cli_args : option (list string))
  (hidraw_path : option string) : result :=
  match parse_stage E cli_args with
  | inl r => r
  | inr (action, args) =>
      if negb (existsb (String.eqb action) actions)
      then (EmptyString, Uncaught "AssertionError")
      else (EmptyString, try_block E action args hidraw_path)
  end.

(** The exit status of the process when [run] ends with [o]; returning
    leaves the caller to end with status 0. *)
Definition exit_status (o : outcome) : Z :=
  match o with
  | Returns => 0
  | SystemExit (Status n) => n
  | SystemExit (Message _) => 1
  | Uncaught _ => 1
  end.

(** The text on the error stream that [run] and its way of ending
    account for. *)
Definition error_stream (r : result) : string :=
  fst r
  ++ match snd r with
     | SystemExit (Message msg) => msg ++ nl
     | _ => EmptyString
     end.

End Dispatcher.

(** ** Reference notions used to state the properties *)

Module Reference.

Import PyStr Resolver.

(** The token is one character that [int] reads as the slot [n] of
    1..6. *)
Definition is_slot_token (name : string) (n : Z) : Prop :=
  exists c, name = String c EmptyString
            /\ int_of_char c = Some n /\ 1 <= n <= 6.

(** The part of an iteration that a scan started with [count] reaches:
    its first [count] devices when [count] is at least 1, all of it
    otherwise. *)
Definition scanned_prefix (devs : list Device) (count : Z) : list Device :=
  if 1 <=? count then firstn (Z.to_nat count) devs else devs.

(** The devices the scan reaches at one entry of the list. *)
Definition scanned (h : handle) : list Device :=
  match h with
  | H_receiver r => scanned_prefix (r_iter r) (r_count r)
  | H_device d => [d]
  end.

(** All the devices of one entry: what a receiver's iteration produces,
    or the directly connected device itself. *)
Definition all_devices (h : handle) : list Device :=
  match h with
  | H_receiver r => r_iter r
  | H_device d => [d]
  end.

(** The name contains the token, compared without regard to case. *)
Definition name_contains_ci (token name : string) : bool :=
  contains (lower token) (lower name).

(** A receiver qualifies for a token, in the words of the
    specification: its name contains the token, or its serial is not
    null and equals it, both without regard to case. *)
Definition qualifies_ci (token : string) (r : handle) : bool :=
  name_contains_ci token (h_name r)
  || match h_serial r with
     | None => false
     | Some s => (lower token =? lower s)%string
     end.

(** [res] is the first entry of [rs] that satisfies [p], or [None] when
    no entry does. *)
Definition first_such (p : handle -> bool) (rs : list handle)
  (res : option handle) : Prop :=
  match res with
  | Some r =>
      exists before after,
        rs = (before ++ r :: after)%list
        /\ Forall (fun x => p x = false) before
        /\ p r = true
  | None => Forall (fun x => p x = false) rs
  end.

End Reference.

(** ** Reference notions for the handle builders *)

Module BuildReference.

Import Dispatcher.

(** The actions that work on receivers and devices; the others work on
    receivers only. *)
Definition on_devices (action : string) : bool :=
  ((action =? "show") || (action =? "probe")
   || (action =? "config") || (action =? "profiles"))%string.

(** The records the builder of an action goes through. *)
Definition enumeration (E : env) (action : string) : list dev_info :=
  if on_devices action then base_receivers_and_devices E
  else base_receivers E.

(** The construction call the builder of an action makes for a record,
    with its result as an entry of the handle list. *)
Definition construct (E : env) (action : string) (i : dev_info)
  : built handle :=
  if on_devices action && di_isDevice i then
    match create_device E i with
    | Constructed d => Constructed (option_map H_device d)
    | Fails e => Fails e
    end
  else
    match create_receiver E i with
    | Constructed r => Constructed (option_map H_receiver r)
    | Fails e => Fails e
    end.

(** A record gives no trouble: the path filter drops it, or its
    construction returns. *)
Definition harmless (E : env) (action : string)
  (dev_path : option string) (i : dev_info) : Prop :=
  filtered_out dev_path i = true
  \/ exists h, construct E action i = Constructed h.

(** The handles of the records that pass the filter and whose
    construction returns one, in the order of the records. *)
Definition constructed_handles (E : env) (action : string)
  (dev_path : option string) (infos : list dev_info) : list handle :=
  flat_map
    (fun i =>
       if filtered_out dev_path i then []
       else match construct E action i with
            | Constructed (Some h) => [h]
            | _ => []
            end)
    infos.

(** The generator an action is served by. *)
Definition builder (E : env) (action : string) (dev_path : option string)
  : list handle * build_end :=
  if on_devices action then _receivers_and_devices E dev_path
  else _receivers E dev_path.

(** Its loop over the records still to come. *)
Definition builder_loop (E : env) (action : string)
  (infos : list dev_info) (dev_path : option string)
  : list handle * build_end :=
  if on_devices action then receivers_and_devices_loop E infos dev_path
  else receivers_loop E infos dev_path.

End BuildReference.

(** ** Concrete handles used in the examples *)

Module Samples.

Import Resolver Dispatcher.

Definition m330 : Device :=
  {| d_serial := "AB12CD34"; d_codename := "M330"; d_kind := "mouse";
     d_name := "Wireless Mouse M330" |}.

Definition mx3 : Device :=
  {| d_serial := "0F1E2D3C"; d_codename := "MX Master 3"; d_kind := "mouse";
     d_name := "Wireless Mouse MX Master 3" |}.

Definition k400 : Device :=
  {| d_serial := "77aa88bb"; d_codename := "K400"; d_kind := "keyboard";
     d_name := "Wireless Touch Keyboard K400" |}.

(** A receiver with [mx3] in slot 1 and [m330] in slot 3. *)
Definition unifying : Receiver :=
  {| r_name := "Unifying Receiver";
     r_serial := Some "C0FFEE01";
     r_count := 2;
     r_getitem := fun n => if n =? 1 then Some mx3
                           else if n =? 3 then Some m330 else None;
     r_iter := [mx3; m330] |}.

(** A receiver that reports two paired devices and iterates over
    three. *)
Definition overfull : Receiver :=
  {| r_name := "Lightspeed Receiver";
     r_serial := Some "5eed0003";
     r_count := 2;
     r_getitem := fun n => if n =? 1 then Some mx3
                           else if n =? 2 then Some m330
                           else if n =? 3 then Some k400 else None;
     r_iter := [mx3; m330; k400] |}.

(** A receiver that reports one paired device and iterates over two. *)
Definition short_count : Receiver :=
  {| r_name := "Nano Receiver";
     r_serial := None;
     r_count := 1;
     r_getitem := fun n => if n =? 1 then Some m330
                           else if n =? 2 then Some mx3 else None;
     r_iter := [m330; mx3] |}.

(** A receiver that reports no paired device and iterates over two. *)
Definition zero_count : Receiver :=
  {| r_name := "Bolt Receiver";
     r_serial := Some "b01t0002";
     r_count := 0;
     r_getitem := fun n => if n =? 1 then Some k400
                           else if n =? 2 then Some m330 else None;
     r_iter := [k400; m330] |}.

Definition usb1 : dev_info := {| path := "/dev/hidraw1"; di_isDevice := false |}.
Definition usb2 : dev_info := {| path := "/dev/hidraw2"; di_isDevice := false |}.
Definition usb3 : dev_info := {| path := "/dev/hidraw3"; di_isDevice := true |}.

(** A machine with three records: the first gives no handle, the
    second gives [unifying], the third cannot be opened.  The parser
    accepts the action show; run from the command line without
    arguments it gives an empty namespace. *)
Definition machine : env :=
  {| NAME := "Solaar";
     sys_argv := [];
     parse_args := fun tokens =>
       match tokens with
       | [] => Parsed []
       | _ => Parsed [(D_device, Some "all"); (D_action, Some "show")]
       end;
     usage := "usage: solaar {show,probe,profiles,config,pair,unpair} ...";
     base_receivers := [usb1; usb2];
     base_receivers_and_devices := [usb1; usb2; usb3];
     create_receiver := fun i =>
       if (path i =? "/dev/hidraw2")%string
       then Constructed (Some unifying) else Constructed None;
     create_device := fun _ => Fails "Permission denied";
     action_run := fun _ _ _ => ActionReturns;
     frames := "  File cli/__init__.py, line 212, in run" ++ nl |}.

(** The same machine with nothing connected. *)
Definition bare_machine : env :=
  {| NAME := NAME machine;
     sys_argv := sys_argv machine;
     parse_args := parse_args machine;
     usage := usage machine;
     base_receivers := [];
     base_receivers_and_devices := [];
     create_receiver := create_receiver machine;
     create_device := create_device machine;
     action_run := action_run machine;
     frames := frames machine |}.

End Samples.

(** ** Further reference notions *)

Module Coverage.

Import PyStr Resolver Dispatcher.

(** A character that [str.lower] changes: an upper-case letter. *)
Definition is_upper (c : ascii) : bool :=
  negb (Ascii.eqb (lower_char c) c).

(** The token holds an upper-case letter. *)
Definition has_upper (s : string) : bool :=
  existsb is_upper (list_ascii_of_string s).

(** What the slot query yields at an entry of the list, read off the
    token: the device in slot [n] of a receiver when the token is the one
    digit [n] of 1..6, nothing otherwise. *)
Definition slot_hit (name : string) (h : handle) : list Device :=
  match h, name with
  | H_receiver r, String c EmptyString =>
      match int_of_char c with
      | Some n =>
          if (1 <=? n) && (n <=? 6)
          then match r_getitem r n with
               | Some dev => [dev]
               | None => []
               end
          else []
      | None => []
      end
  | _, _ => []
  end.

(** The devices a trace pings, in order. *)
Fixpoint pings (t : list event) : list Device :=
  match t with
  | [] => []
  | Ping d :: t' => d :: pings t'
  | _ :: t' => pings t'
  end.

(** The directly connected devices of a handle list, in order. *)
Definition wired (rs : list handle) : list Device :=
  flat_map (fun h => match h with
                     | H_receiver _ => []
                     | H_device d => [d]
                     end) rs.

(** A receiver whose [count()] is the number of devices its iteration
    produces. *)
Definition consistent (h : handle) : Prop :=
  match h with
  | H_receiver r => r_count r = Z.of_nat (List.length (r_iter r))
  | H_device _ => True
  end.

(** The records of an enumeration that have the path [p]. *)
Definition on_path (p : string) (infos : list dev_info) : list dev_info :=
  filter (fun i => (p =? path i)%string) infos.

End Coverage.

(** ** Facts about strings *)

Import PyStr.

Lemma prefix_app (a b : string) : prefix a (a ++ b) = true.
Proof.
  induction a as [|c a IH]; simpl.
  - destruct b; reflexivity.
  - destruct (ascii_dec c c) as [_|n]; [exact IH | now elim n].
Qed.

Lemma prefix_split (a b : string) :
  prefix a b = true -> exists t, b = a ++ t.
Proof.
  revert b; induction a as [|c a IH]; intros b H.
  - exists b; reflexivity.
  - destruct b as [|c' b]; simpl in H; [discriminate|].
    destruct (ascii_dec c c') as [->|_]; [|discriminate].
    destruct (IH b H) as [t ->]. exists t; reflexivity.
Qed.

Lemma contains_app (p a q : string) : contains a (p ++ a ++ q) = true.
Proof.
  induction p as [|c p IH].
  - change ("" ++ a ++ q) with (a ++ q).
    pose proof (prefix_app a q) as H.
    destruct (a ++ q); cbn [contains]; rewrite H; reflexivity.
  - change (String c p ++ a ++ q) with (String c (p ++ a ++ q)).
    cbn [contains]. rewrite IH. apply orb_true_r.
Qed.

Lemma contains_split (a b : string) :
  contains a b = true -> exists p q, b = p ++ a ++ q.
Proof.
  induction b as [|c b IH]; intros H.
  - cbn [contains] in H. rewrite orb_false_r in H.
    destruct (prefix_split _ _ H) as [t Ht]. exists "", t. exact Ht.
  - cbn [contains] in H. apply orb_true_iff in H. destruct H as [H|H].
    + destruct (prefix_split _ _ H) as [t Ht]. exists "", t. exact Ht.
    + destruct (IH H) as (p & q & ->). exists (String c p), q. reflexivity.
Qed.

(** [contains] is the substring relation. *)
Lemma contains_spec (a b : string) :
  contains a b = true <-> exists p q, b = p ++ a ++ q.
Proof.
  split.
  - apply contains_split.
  - intros (p & q & ->). apply contains_app.
Qed.

Lemma int_of_char_range (c : ascii) (n : Z) :
  int_of_char c = Some n -> 0 <= n <= 9.
Proof.
  unfold int_of_char. destruct (_ && _) eqn:E; [|discriminate].
  intros [= <-]. apply andb_true_iff in E. lia.
Qed.

(** ** The model on concrete inputs *)

Import Resolver Dispatcher Samples.

Example lower_example : lower "Unifying RECEIVER" = "unifying receiver".
Proof. reflexivity. Qed.

Example contains_example :
  contains "mouse" "wireless mouse m330" = true
  /\ contains "Mouse" "wireless mouse m330" = false.
Proof. split; reflexivity. Qed.

Example slot_number_examples :
  slot_number "3" = inr (Some 3)
  /\ slot_number "0" = inr (Some 0)
  /\ slot_number "7" = inr None
  /\ slot_number "x" = inr None
  /\ slot_number "12" = inr None.
Proof. repeat split. Qed.

Example find_device_trace_example :
  _find_device [H_receiver unifying; H_device k400] "3"
  = ([GetItem unifying 3; Yield m330; Count unifying;
      Examine mx3; Yield mx3; Examine m330; Yield m330; Break;
      Ping k400; Examine k400; Break],
     Returned).
Proof. reflexivity. Qed.

Example find_device_asserts_example :
  _find_device [] "3" = ([], Raised (AssertionError 152))
  /\ _find_device [H_receiver unifying] EmptyString
     = ([], Raised (AssertionError 153)).
Proof. split; reflexivity. Qed.

Example find_receiver_example :
  _find_receiver [H_device k400; H_receiver unifying] "unifying"
  = inr (Some (H_receiver unifying))
  /\ _find_receiver [H_device k400; H_receiver unifying] "bolt" = inr None
  /\ _find_receiver [] "bolt" = inl (AssertionError 143).
Proof. repeat split. Qed.

Example receivers_example :
  _receivers machine None = ([H_receiver unifying], Finished)
  /\ _receivers machine (Some "/dev/hidraw1") = ([], Finished).
Proof. split; reflexivity. Qed.

Example run_examples :
  run machine (Some ["pair"]) None = (EmptyString, Returns)
  /\ run machine (Some ["bogus"]) None
     = (EmptyString, Uncaught "AssertionError")
  /\ run machine (Some ["pair"]) (Some "/dev/hidraw1")
     = (EmptyString,
        SystemExit
          (error_exit machine
             (format_exc machine "Exception" no_device_message))).
Proof. repeat split. Qed.

(** ** Facts about the scan and the generator body *)

Import Reference.

Section Traces.

Lemma yields_app (a b : list event) :
  yields (a ++ b) = (yields a ++ yields b)%list.
Proof.
  induction a as [|e a IH]; [reflexivity|].
  destruct e; simpl; rewrite IH; reflexivity.
Qed.

Lemma examined_app (a b : list event) :
  examined (a ++ b) = (examined a ++ examined b)%list.
Proof.
  induction a as [|e a IH]; [reflexivity|].
  destruct e; simpl; rewrite IH; reflexivity.
Qed.

Lemma yields_flat_map (A : Type) (f : A -> list event) (l : list A) :
  yields (flat_map f l) = flat_map (fun x => yields (f x)) l.
Proof.
  induction l as [|x l IH]; simpl; [reflexivity|].
  rewrite yields_app, IH. reflexivity.
Qed.

Lemma yields_match (name : string) (dev : Device) :
  yields (if device_matches name dev then [Yield dev] else [])
  = filter (device_matches name) [dev].
Proof. simpl. destruct (device_matches name dev); reflexivity. Qed.

Lemma scanned_prefix_cons (dev : Device) (rest : list Device) (count : Z) :
  scanned_prefix (dev :: rest) count
  = dev :: (if count - 1 =? 0 then [] else scanned_prefix rest (count - 1)).
Proof.
  unfold scanned_prefix.
  destruct (Z.eqb_spec (count - 1) 0) as [E|E].
  - replace count with 1 by lia. reflexivity.
  - destruct (Z.leb_spec 1 count) as [H|H].
    + replace (Z.to_nat count) with (S (Z.to_nat (count - 1))) by lia.
      destruct (Z.leb_spec 1 (count - 1)); [reflexivity | lia].
    + destruct (Z.leb_spec 1 (count - 1)); [lia | reflexivity].
Qed.

(** The scan yields the matching devices of the part it reaches. *)
Lemma scan_yields (name : string) (devs : list Device) (count : Z) :
  yields (scan name devs count)
  = filter (device_matches name) (scanned_prefix devs count).
Proof.
  revert count; induction devs as [|dev rest IH]; intros count.
  - unfold scanned_prefix. destruct (1 <=? count);
      [rewrite firstn_nil|]; reflexivity.
  - rewrite scanned_prefix_cons. cbn [scan yields filter].
    rewrite yields_app, yields_match. cbn zeta.
    destruct (count - 1 =? 0).
    + simpl. destruct (device_matches name dev); reflexivity.
    + rewrite IH. simpl. destruct (device_matches name dev); reflexivity.
Qed.

(** The scan examines exactly the part it reaches. *)
Lemma scan_examined (name : string) (devs : list Device) (count : Z) :
  examined (scan name devs count) = scanned_prefix devs count.
Proof.
  revert count; induction devs as [|dev rest IH]; intros count.
  - unfold scanned_prefix. destruct (1 <=? count);
      [rewrite firstn_nil|]; reflexivity.
  - rewrite scanned_prefix_cons. cbn [scan examined].
    rewrite examined_app. cbn zeta.
    replace (examined (if device_matches name dev then [Yield dev] else []))
      with (@nil Device) by (destruct (device_matches name dev); reflexivity).
    destruct (count - 1 =? 0); [reflexivity|].
    rewrite IH. reflexivity.
Qed.

(** A scan that starts below 1 never leaves on the count. *)
Lemma scan_no_break (name : string) (devs : list Device) (count : Z) :
  count <= 0 -> ~ In Break (scan name devs count).
Proof.
  revert count; induction devs as [|dev rest IH]; intros count Hc; simpl.
  - tauto.
  - intros [H|H]; [discriminate|].
    apply in_app_or in H. destruct H as [H|H].
    + destruct (device_matches name dev); simpl in H;
        [destruct H as [H|[]]; discriminate | contradiction].
    + destruct (Z.eqb_spec (count - 1) 0) as [E|E]; [lia|].
      apply (IH (count - 1)); [lia | exact H].
Qed.

Lemma scan_no_getitem (name : string) (devs : list Device) (count : Z)
  (r : Receiver) (n : Z) :
  ~ In (GetItem r n) (scan name devs count).
Proof.
  revert count; induction devs as [|dev rest IH]; intros count; simpl.
  - tauto.
  - intros [H|H]; [discriminate|].
    apply in_app_or in H. destruct H as [H|H].
    + destruct (device_matches name dev); simpl in H;
        [destruct H as [H|[]]; discriminate | contradiction].
    + destruct (count - 1 =? 0).
      * destruct H as [H|[]]; discriminate.
      * exact (IH _ H).
Qed.

(** Without a slot number the body is the count and the scan alone. *)
Lemma for_body_falsy (number : option Z) (name : string) (h : handle) :
  number_truthy number = false ->
  for_body number name h = for_body None name h.
Proof.
  intros H. destruct h as [rc|d]; [|reflexivity].
  destruct number as [n|]; [|reflexivity].
  simpl in *. rewrite H. reflexivity.
Qed.

(** Where the body queries a slot. *)
Lemma for_body_getitem (number : option Z) (name : string) (h : handle)
  (r : Receiver) (n : Z) :
  In (GetItem r n) (for_body number name h)
  <-> h = H_receiver r /\ number = Some n /\ n <> 0.
Proof.
  destruct h as [rc|d]; simpl.
  - split.
    + intros H. apply in_app_or in H. destruct H as [H|H].
      * destruct number as [m|]; [|contradiction].
        cbn [number_truthy] in H.
        destruct (Z.eqb_spec m 0) as [E|E]; [contradiction|].
        destruct H as [H|H].
        -- injection H as -> ->. auto.
        -- destruct (r_getitem rc m); simpl in H;
             [destruct H as [H|[]]; discriminate | contradiction].
      * destruct H as [H|H]; [discriminate|].
        now apply scan_no_getitem in H.
    + intros ([= ->] & -> & Hn). apply in_or_app. left.
      cbn [number_truthy].
      destruct (Z.eqb_spec n 0) as [E|E]; [contradiction|].
      left; reflexivity.
  - split.
    + intros [H|H]; [discriminate|].
      change (In (GetItem r n) (scan name [d] 1)) in H.
      now apply scan_no_getitem in H.
    + intros (H & _); discriminate.
Qed.

(** The first block never fails: [int] gives no negative number. *)
Lemma slot_number_total (name : string) :
  exists number, slot_number name = inr number.
Proof.
  unfold slot_number.
  destruct name as [|c [|c' s]]; try (eexists; reflexivity).
  destruct (int_of_char c) as [n|] eqn:E; [|eexists; reflexivity].
  apply int_of_char_range in E.
  destruct (Z.ltb_spec n 0); [lia|].
  destruct (n >? 6); eexists; reflexivity.
Qed.

(** [number] is a usable slot exactly for the slot tokens. *)
Lemma slot_number_spec (name : string) (number : option Z) (n : Z) :
  slot_number name = inr number ->
  (number = Some n /\ n <> 0) <-> is_slot_token name n.
Proof.
  unfold slot_number, is_slot_token. intros H. split.
  - intros (-> & Hn).
    destruct name as [|c [|c' s]]; try discriminate.
    destruct (int_of_char c) as [m|] eqn:E; [|discriminate].
    pose proof (int_of_char_range _ _ E) as R.
    destruct (Z.ltb_spec m 0); [discriminate|].
    destruct (Z.gtb_spec m 6); [discriminate|].
    injection H as ->. exists c. repeat split; [exact E | lia | lia].
  - intros (c & -> & E & R). rewrite E in H.
    destruct (Z.ltb_spec n 0); [lia|].
    destruct (Z.gtb_spec n 6); [lia|].
    injection H as <-. split; [reflexivity | lia].
Qed.

End Traces.

(** ** Properties of [_find_device] *)

Section FindDevice.

Lemma filter_flat_map (A B : Type) (p : B -> bool) (f : A -> list B)
  (l : list A) :
  filter p (flat_map f l) = flat_map (fun x => filter p (f x)) l.
Proof.
  induction l as [|x l IH]; simpl; [reflexivity|].
  rewrite filter_app, IH. reflexivity.
Qed.

Lemma filter_filter_weaker (A : Type) (p q : A -> bool) (l : list A) :
  (forall x, p x = true -> q x = true) ->
  filter p (filter q l) = filter p l.
Proof.
  intros H. induction l as [|x l IH]; simpl; [reflexivity|].
  destruct (q x) eqn:Q; simpl.
  - rewrite IH. reflexivity.
  - destruct (p x) eqn:P; [rewrite (H x P) in Q; discriminate | exact IH].
Qed.

(** What the body yields at one entry: the device of the slot, if the
    slot is queried and holds one, then the matches of the scan. *)
Lemma for_body_yields (number : option Z) (name : string) (h : handle) :
  yields (for_body number name h)
  = (match h, number with
     | H_receiver r, Some n =>
         if number_truthy number
         then match r_getitem r n with Some dev => [dev] | None => [] end
         else []
     | _, _ => []
     end
     ++ filter (device_matches name) (scanned h))%list.
Proof.
  destruct h as [r|d].
  - cbn [for_body]. rewrite yields_app. cbn [yields].
    rewrite scan_yields. f_equal.
    destruct number as [n|]; [|reflexivity].
    destruct (number_truthy (Some n)); [|reflexivity].
    cbn [yields]. destruct (r_getitem r n); reflexivity.
  - cbn [for_body yields]. rewrite scan_yields. reflexivity.
Qed.

(** With a list and a token that pass the two assertions, the generator
    runs the body at every entry in turn and returns. *)
Lemma find_device_runs (receivers : list handle) (name : string) :
  receivers <> [] -> truthy name = true ->
  exists number,
    slot_number name = inr number
    /\ _find_device receivers name
       = (flat_map (for_body number name) receivers, Returned).
Proof.
  intros Hr Hn. destruct (slot_number_total name) as [number E].
  exists number. split; [exact E|].
  destruct receivers as [|h rest]; [contradiction|].
  unfold _find_device. rewrite Hn, E. reflexivity.
Qed.

(** The run of the generator around one entry of the list. *)
Lemma find_device_at (before after : list handle) (h : handle)
  (name : string) :
  truthy name = true ->
  exists number,
    slot_number name = inr number
    /\ fst (_find_device (before ++ h :: after) name)
       = (flat_map (for_body number name) before
          ++ for_body number name h
          ++ flat_map (for_body number name) after)%list.
Proof.
  intros Hn.
  destruct (find_device_runs (before ++ h :: after) name) as (number & E & R).
  - destruct before; discriminate.
  - exact Hn.
  - exists number. split; [exact E|].
    rewrite R. cbn [fst]. rewrite flat_map_app. reflexivity.
Qed.

(** C1.  The generator queries slot [n] of a receiver [r] exactly when
    [r] is one of the receivers of the list and the token is one
    character that parses as [n] with [1 <= n <= 6].  For any other
    non-empty token (the token 0, a digit above 6, a character that is
    not a digit, a longer token) no slot is queried: the generator does at
    every entry what it does without a slot number, the count and the
    matching scan. *)
Theorem find_device_slot_lookup (receivers : list handle) (name : string) :
  (forall r n,
      In (GetItem r n) (fst (_find_device receivers name))
      <-> In (H_receiver r) receivers /\ is_slot_token name n)
  /\ ((forall n, ~ is_slot_token name n) ->
      truthy name = true ->
      fst (_find_device receivers name)
      = flat_map (for_body None name) receivers).
Proof.
  destruct receivers as [|h rest].
  { split; [|reflexivity]. intros r n; simpl. tauto. }
  destruct (truthy name) eqn:Hn.
  - destruct (find_device_runs (h :: rest) name) as (number & E & R);
      [discriminate | exact Hn |].
    rewrite R. cbn [fst]. split.
    + intros r n. rewrite in_flat_map. split.
      * intros (x & Hx & Hin). apply for_body_getitem in Hin.
        destruct Hin as (-> & Hnum & Hz). split; [exact Hx|].
        apply (slot_number_spec name number n E). auto.
      * intros (Hin & Hs).
        apply (slot_number_spec name number n E) in Hs.
        exists (H_receiver r). split; [exact Hin|].
        apply for_body_getitem. tauto.
    + intros Hno _. apply flat_map_ext. intros x.
      apply for_body_falsy.
      destruct number as [n|]; [|reflexivity]. cbn [number_truthy].
      destruct (Z.eqb_spec n 0) as [Z0|Z0]; [reflexivity|].
      exfalso. apply (Hno n).
      apply (slot_number_spec name (Some n) n E). auto.
  - split.
    + intros r n. unfold _find_device. rewrite Hn. simpl. split; [tauto|].
      intros (_ & c & -> & _). discriminate.
    + discriminate.
Qed.

Lemma find_device_slot_lookup_witness :
  fst (_find_device [H_receiver unifying; H_device k400] "0")
  = flat_map (for_body None "0") [H_receiver unifying; H_device k400]
  /\ (In (GetItem unifying 3)
         (fst (_find_device [H_receiver unifying; H_device k400] "3"))).
Proof.
  split.
  - apply (proj2 (find_device_slot_lookup
                    [H_receiver unifying; H_device k400] "0")).
    + intros n (c & E & I & R). injection E as <-.
      vm_compute in I. injection I as <-. lia.
    + reflexivity.
  - apply (proj1 (find_device_slot_lookup
                    [H_receiver unifying; H_device k400] "3")).
    split; [left; reflexivity|].
    exists "3"%char. split; [reflexivity | split; [reflexivity | lia]].
Defined.

(** C3, as the specification states it, fails: with the token 3 the
    receiver [overfull], whose [count()] is 2, has three different
    devices yielded from it, the device of slot 3 and then the two
    devices the scan reaches. *)
Lemma find_device_count_two_counterexample :
  r_count overfull = 2
  /\ yields (fst (_find_device [H_receiver overfull] "3"))
     = [k400; mx3; m330]
  /\ List.length (yields (fst (_find_device [H_receiver overfull] "3")))
     = 3%nat.
Proof. repeat split. Qed.

(** At a receiver whose [count()] is 2 the scan examines at most two
    devices, and the slot query adds at most one yield before it. *)
Lemma for_body_count_two (r : Receiver) (number : option Z) (name : string) :
  r_count r = 2 ->
  exists slot_part : list Device,
    yields (for_body number name (H_receiver r))
    = (slot_part ++ yields (scan name (r_iter r) (r_count r)))%list
    /\ (List.length slot_part <= 1)%nat
    /\ (number_truthy number = false -> slot_part = [])
    /\ (List.length (examined (scan name (r_iter r) (r_count r))) <= 2)%nat
    /\ (List.length (yields (scan name (r_iter r) (r_count r))) <= 2)%nat.
Proof.
  intros Hc. rewrite for_body_yields, scan_yields, scan_examined.
  cbn [scanned]. rewrite Hc.
  assert (L : (List.length (scanned_prefix (r_iter r) 2) <= 2)%nat).
  { unfold scanned_prefix. change (1 <=? 2) with true. cbv iota.
    change (Z.to_nat 2) with 2%nat. apply firstn_le_length. }
  eexists. split; [reflexivity|]. repeat split.
  - destruct number as [n|]; [|simpl; lia].
    destruct (number_truthy (Some n)); [|simpl; lia].
    destruct (r_getitem r n); simpl; lia.
  - intros F. destruct number as [n|]; [|reflexivity].
    rewrite F. reflexivity.
  - exact L.
  - etransitivity; [apply filter_length_le | exact L].
Qed.

(** C3, amended.  Let [r] be a receiver of the list whose [count()] is 2.
    What the generator yields is what it yields at the entries before [r],
    then what it yields at [r], then what it yields at the entries after.
    At [r] the scan examines at most 2 devices, whatever the iteration of
    [r] would produce, and so yields at most 2; before them comes at most
    one device from the slot query, and none when the token is no slot
    number. *)
Theorem find_device_count_two_bound (before after : list handle)
  (r : Receiver) (name : string) :
  r_count r = 2 ->
  truthy name = true ->
  exists (number : option Z) (slot_part : list Device),
    yields (fst (_find_device (before ++ H_receiver r :: after) name))
    = (yields (flat_map (for_body number name) before)
       ++ (slot_part ++ yields (scan name (r_iter r) (r_count r)))
       ++ yields (flat_map (for_body number name) after))%list
    /\ (List.length slot_part <= 1)%nat
    /\ ((forall n, ~ is_slot_token name n) -> slot_part = [])
    /\ (List.length (examined (scan name (r_iter r) (r_count r))) <= 2)%nat
    /\ (List.length (yields (scan name (r_iter r) (r_count r))) <= 2)%nat.
Proof.
  intros Hc Hn.
  destruct (find_device_at before after (H_receiver r) name Hn)
    as (number & E & R).
  destruct (for_body_count_two r number name Hc)
    as (slot_part & Y & L1 & F & L2 & L3).
  exists number, slot_part. split; [|split; [exact L1|split; [|split]]].
  - rewrite R, !yields_app, Y. reflexivity.
  - intros Hno. apply F.
    destruct number as [n|]; [|reflexivity]. cbn [number_truthy].
    destruct (Z.eqb_spec n 0) as [Z0|Z0]; [reflexivity|].
    exfalso. apply (Hno n).
    apply (slot_number_spec name (Some n) n E). auto.
  - exact L2.
  - exact L3.
Qed.

Lemma find_device_count_two_bound_witness :
  exists (number : option Z) (slot_part : list Device),
    yields (fst (_find_device ([H_device k400] ++ H_receiver overfull :: [])
                              "3"))
    = (yields (flat_map (for_body number "3") [H_device k400])
       ++ (slot_part ++ yields (scan "3" (r_iter overfull) (r_count overfull)))
       ++ yields (flat_map (for_body number "3") []))%list
    /\ (List.length slot_part <= 1)%nat
    /\ ((forall n, ~ is_slot_token "3" n) -> slot_part = [])
    /\ (List.length (examined (scan "3" (r_iter overfull) (r_count overfull)))
        <= 2)%nat
    /\ (List.length (yields (scan "3" (r_iter overfull) (r_count overfull)))
        <= 2)%nat.
Proof.
  apply (find_device_count_two_bound [H_device k400] [] overfull "3");
    reflexivity.
Defined.

(** C4.  With the token 3 and a list whose first entry is a receiver
    with a device in slot 3, the generator first queries the slot and
    yields that device, whatever its name, and only then asks the
    receiver for its count and scans it. *)
Theorem find_device_slot_first (r : Receiver) (rest : list handle)
  (dev : Device) :
  r_getitem r 3 = Some dev ->
  exists tail,
    _find_device (H_receiver r :: rest) "3"
    = (GetItem r 3 :: Yield dev :: Count r :: tail, Returned)
    /\ hd_error (yields (fst (_find_device (H_receiver r :: rest) "3")))
       = Some dev.
Proof.
  intros H.
  exists (scan "3" (r_iter r) (r_count r)
          ++ flat_map (for_body (Some 3) "3") rest)%list.
  unfold _find_device.
  change (slot_number "3") with (@inr exn _ (Some 3)).
  cbn [truthy negb flat_map for_body number_truthy Z.eqb fst].
  rewrite H. split; reflexivity.
Qed.

Lemma find_device_slot_first_witness :
  exists tail,
    _find_device (H_receiver unifying :: [H_device k400]) "3"
    = (GetItem unifying 3 :: Yield m330 :: Count unifying :: tail, Returned)
    /\ hd_error
         (yields (fst (_find_device (H_receiver unifying :: [H_device k400])
                                    "3")))
       = Some m330.
Proof.
  apply (find_device_slot_first unifying [H_device k400] m330).
  reflexivity.
Defined.

(** C5, as the specification states it, fails: the receiver
    [short_count] iterates over two devices whose names contain the
    token, and reports a count of 1; the scan stops after the first, and
    the second is never yielded. *)
Lemma find_device_mouse_counterexample :
  In mx3 (flat_map all_devices [H_receiver short_count])
  /\ name_contains_ci "mouse" (d_name mx3) = true
  /\ yields (fst (_find_device [H_receiver short_count] "mouse")) = [m330]
  /\ ~ In mx3 (yields (fst (_find_device [H_receiver short_count] "mouse"))).
Proof.
  split; [right; left; reflexivity|].
  split; [reflexivity|]. split; [reflexivity|].
  intros [H|[]]. discriminate H.
Qed.

(** C5, amended.  With the token mouse the generator yields, entry by
    entry of the list and within an entry in the order of its iteration,
    the devices the scan reaches (the first [count()] of a receiver's
    iteration when [count()] is at least 1, all of it otherwise; a
    directly connected device itself) that match the token; among them is
    every reached device whose name contains mouse without regard to
    case, in that same order. *)
Theorem find_device_mouse (receivers : list handle) :
  yields (fst (_find_device receivers "mouse"))
  = flat_map (fun h => filter (device_matches "mouse") (scanned h))
             receivers
  /\ filter (fun d => name_contains_ci "mouse" (d_name d))
            (yields (fst (_find_device receivers "mouse")))
     = filter (fun d => name_contains_ci "mouse" (d_name d))
              (flat_map scanned receivers).
Proof.
  assert (Y : yields (fst (_find_device receivers "mouse"))
              = flat_map (fun h => filter (device_matches "mouse") (scanned h))
                         receivers).
  { destruct receivers as [|h rest]; [reflexivity|].
    unfold _find_device.
    change (slot_number "mouse") with (@inr exn (option Z) None).
    cbn [truthy negb fst]. rewrite yields_flat_map.
    apply flat_map_ext. intros x. rewrite for_body_yields.
    destruct x; reflexivity. }
  split; [exact Y|].
  rewrite Y, !filter_flat_map. apply flat_map_ext. intros h.
  apply filter_filter_weaker. intros d Hd.
  unfold device_matches. apply orb_true_iff. right. exact Hd.
Qed.

(** C9.  When the token is a slot number [n] of 1..6, the receiver [r]
    has a device in slot [n], and that device matches the token and is
    among the devices the scan of [r] reaches, the body yields it at [r]
    twice: first from the slot query, then again from the scan.  In the
    run of the generator over a list that holds [r], what is yielded at
    [r] stands between what is yielded at the entries before and
    after. *)
Theorem find_device_yields_slot_device_twice (before after : list handle)
  (r : Receiver) (name : string) (n : Z) (dev : Device) :
  is_slot_token name n ->
  r_getitem r n = Some dev ->
  device_matches name dev = true ->
  In dev (scanned (H_receiver r)) ->
  yields (for_body (Some n) name (H_receiver r))
  = dev :: filter (device_matches name) (scanned (H_receiver r))
  /\ (exists l1 l2,
        filter (device_matches name) (scanned (H_receiver r))
        = (l1 ++ dev :: l2)%list)
  /\ yields (fst (_find_device (before ++ H_receiver r :: after) name))
     = (yields (flat_map (for_body (Some n) name) before)
        ++ (dev :: filter (device_matches name) (scanned (H_receiver r)))
        ++ yields (flat_map (for_body (Some n) name) after))%list.
Proof.
  intros Hs Hg Hm Hin.
  assert (Y : yields (for_body (Some n) name (H_receiver r))
              = dev :: filter (device_matches name) (scanned (H_receiver r))).
  { rewrite for_body_yields. cbn [number_truthy].
    destruct Hs as (c & -> & E & R).
    destruct (Z.eqb_spec n 0) as [Z0|Z0]; [lia|].
    cbn [negb]. rewrite Hg. reflexivity. }
  split; [exact Y|]. split.
  - apply in_split. apply filter_In. split; assumption.
  - destruct (find_device_runs (before ++ H_receiver r :: after) name)
      as (number & E & R).
    + destruct before; discriminate.
    + destruct Hs as (c & -> & _). reflexivity.
    + assert (number = Some n) as ->.
      { apply (slot_number_spec name number n E). exact Hs. }
      rewrite R. cbn [fst].
      rewrite flat_map_app. cbn [flat_map].
      rewrite !yields_app, Y. reflexivity.
Qed.

Lemma find_device_yields_slot_device_twice_witness :
  yields (for_body (Some 3) "3" (H_receiver unifying))
  = m330 :: filter (device_matches "3") (scanned (H_receiver unifying))
  /\ (exists l1 l2,
        filter (device_matches "3") (scanned (H_receiver unifying))
        = (l1 ++ m330 :: l2)%list)
  /\ yields (fst (_find_device
                    ([H_device k400] ++ H_receiver unifying :: []) "3"))
     = (yields (flat_map (for_body (Some 3) "3") [H_device k400])
        ++ (m330 :: filter (device_matches "3") (scanned (H_receiver unifying)))
        ++ yields (flat_map (for_body (Some 3) "3") []))%list.
Proof.
  apply (find_device_yields_slot_device_twice
           [H_device k400] [] unifying "3" 3 m330).
  - exists "3"%char. split; [reflexivity | split; [reflexivity | lia]].
  - reflexivity.
  - reflexivity.
  - right; left; reflexivity.
Defined.

(** With a count of 0 the body never leaves its scan on the count and
    examines the whole iteration. *)
Lemma for_body_zero_count (r : Receiver) (number : option Z)
  (name : string) :
  r_count r = 0 ->
  ~ In Break (for_body number name (H_receiver r))
  /\ examined (for_body number name (H_receiver r)) = r_iter r
  /\ yields (scan name (r_iter r) (r_count r))
     = filter (device_matches name) (r_iter r).
Proof.
  intros Hc. split; [|split].
  - cbn [for_body]. intros H. apply in_app_or in H. destruct H as [H|H].
    + destruct number as [n|]; [|contradiction].
      destruct (number_truthy (Some n)); [|contradiction].
      destruct H as [H|H]; [discriminate|].
      destruct (r_getitem r n); simpl in H;
        [destruct H as [H|[]]; discriminate | contradiction].
    + destruct H as [H|H]; [discriminate|].
      apply scan_no_break in H; [exact H | lia].
  - cbn [for_body]. rewrite examined_app. cbn [examined].
    rewrite scan_examined, Hc.
    replace (examined _) with (@nil Device); [reflexivity|].
    destruct number as [n|]; [|reflexivity].
    destruct (number_truthy (Some n)); [|reflexivity].
    cbn [examined]. destruct (r_getitem r n); reflexivity.
  - rewrite scan_yields, Hc. reflexivity.
Qed.

(** C10.  Let [r] be a receiver of the list whose [count()] is 0.  The
    generator runs its body at [r] between the entries before and after,
    and there the scan never leaves on the count: the counter goes from 0
    to -1 and on, and is never 0 when it is tested.  The body examines every
    device the iteration of [r] produces, and the scan yields every one of
    them that matches. *)
Theorem find_device_zero_count_scans_all (before after : list handle)
  (r : Receiver) (name : string) :
  r_count r = 0 ->
  truthy name = true ->
  exists number : option Z,
    fst (_find_device (before ++ H_receiver r :: after) name)
    = (flat_map (for_body number name) before
       ++ for_body number name (H_receiver r)
       ++ flat_map (for_body number name) after)%list
    /\ ~ In Break (for_body number name (H_receiver r))
    /\ examined (for_body number name (H_receiver r)) = r_iter r
    /\ yields (scan name (r_iter r) (r_count r))
       = filter (device_matches name) (r_iter r).
Proof.
  intros Hc Hn.
  destruct (find_device_at before after (H_receiver r) name Hn)
    as (number & _ & R).
  exists number. split; [exact R|].
  apply for_body_zero_count. exact Hc.
Qed.

Lemma find_device_zero_count_scans_all_witness :
  exists number : option Z,
    fst (_find_device ([] ++ H_receiver zero_count :: [H_device k400]) "k400")
    = (flat_map (for_body number "k400") []
       ++ for_body number "k400" (H_receiver zero_count)
       ++ flat_map (for_body number "k400") [H_device k400])%list
    /\ ~ In Break (for_body number "k400" (H_receiver zero_count))
    /\ examined (for_body number "k400" (H_receiver zero_count))
       = r_iter zero_count
    /\ yields (scan "k400" (r_iter zero_count) (r_count zero_count))
       = filter (device_matches "k400") (r_iter zero_count).
Proof.
  apply (find_device_zero_count_scans_all [] [H_device k400] zero_count
           "k400"); reflexivity.
Defined.

End FindDevice.

(** ** Properties of [_find_receiver] *)

Section FindReceiver.

(** The loop returns the first entry that passes its test. *)
Lemma find_receiver_loop_first (receivers : list handle) (name : string) :
  first_such (receiver_matches name) receivers
             (find_receiver_loop receivers name).
Proof.
  induction receivers as [|r rest IH]; simpl.
  - constructor.
  - destruct (receiver_matches name r) eqn:M.
    + exists [], rest. repeat split; [constructor | exact M].
    + destruct (find_receiver_loop rest name) as [x|]; simpl in *.
      * destruct IH as (before & after & -> & Hb & Hx).
        exists (r :: before), after.
        repeat split; [constructor; assumption | exact Hx].
      * constructor; assumption.
Qed.

(** On a token that is already in lower case the test of the loop is the
    comparison without regard to case. *)
Lemma receiver_matches_lower (name : string) (r : handle) :
  lower name = name -> receiver_matches name r = qualifies_ci name r.
Proof.
  intros H. unfold receiver_matches, qualifies_ci, name_contains_ci.
  rewrite H. reflexivity.
Qed.

Lemma first_such_ext (p q : handle -> bool) (rs : list handle)
  (res : option handle) :
  (forall x, p x = q x) -> first_such p rs res -> first_such q rs res.
Proof.
  intros H. destruct res as [r|]; simpl.
  - intros (before & after & -> & Hb & Hr). exists before, after.
    repeat split.
    + eapply Forall_impl; [|exact Hb]. intros x Hx. now rewrite <- H.
    + now rewrite <- H.
  - intros Hb. eapply Forall_impl; [|exact Hb].
    intros x Hx. now rewrite <- H.
Qed.

(** C2, as the specification states it, fails: the token Unifying occurs
    in the name of the receiver [unifying] when case is disregarded, and
    the function returns null, because it lowers the name and not the
    token. *)
Lemma find_receiver_counterexample :
  qualifies_ci "Unifying" (H_receiver unifying) = true
  /\ _find_receiver [H_receiver unifying] "Unifying" = inr None.
Proof. split; reflexivity. Qed.

(** C2, amended.  For a non-empty list and a non-empty token that is in
    lower case already, [_find_receiver] returns the first entry, in the
    order of the list, whose name contains the token without regard to
    case or whose serial is not null and equals the token without regard
    to case; it returns null when no entry qualifies. *)
Theorem find_receiver_first_match (receivers : list handle)
  (name : string) :
  receivers <> [] ->
  truthy name = true ->
  lower name = name ->
  exists res,
    _find_receiver receivers name = inr res
    /\ first_such (qualifies_ci name) receivers res.
Proof.
  intros Hr Hn Hl. exists (find_receiver_loop receivers name). split.
  - destruct receivers as [|r rest]; [contradiction|].
    unfold _find_receiver. rewrite Hn. reflexivity.
  - apply (first_such_ext (receiver_matches name)).
    + intros x. apply receiver_matches_lower. exact Hl.
    + apply find_receiver_loop_first.
Qed.

Lemma find_receiver_first_match_witness :
  exists res,
    _find_receiver [H_device k400; H_receiver unifying] "c0ffee01" = inr res
    /\ first_such (qualifies_ci "c0ffee01")
                  [H_device k400; H_receiver unifying] res.
Proof.
  apply (find_receiver_first_match
           [H_device k400; H_receiver unifying] "c0ffee01").
  - discriminate.
  - reflexivity.
  - reflexivity.
Defined.

End FindReceiver.

(** ** Properties of the handle builders and of [run] *)

Import BuildReference.

Section Run.

Lemma append_assoc (a b c : string) : (a ++ b) ++ c = a ++ b ++ c.
Proof. induction a as [|x a IH]; simpl; [|rewrite IH]; reflexivity. Qed.

Lemma contains_app_r (a x y : string) :
  contains a y = true -> contains a (x ++ y) = true.
Proof.
  intros H. apply contains_spec in H. destruct H as (p & q & ->).
  apply contains_spec. exists (x ++ p), q. apply eq_sym, append_assoc.
Qed.

Lemma contains_app_l (a x y : string) :
  contains a x = true -> contains a (x ++ y) = true.
Proof.
  intros H. apply contains_spec in H. destruct H as (p & q & ->).
  apply contains_spec. exists p, (q ++ y).
  rewrite !append_assoc. reflexivity.
Qed.

(** The parser never sets an attribute called cmd. *)
Lemma cmd_not_in_namespace (args : Namespace) : ns_in "cmd" args = false.
Proof.
  induction args as [|[d v] args IH]; [reflexivity|].
  cbn [ns_in existsb fst]. fold (ns_in "cmd" args). rewrite IH.
  destruct d; reflexivity.
Qed.

Lemma builder_loop_cons (E : env) (action : string) (i : dev_info)
  (rest : list dev_info) (dev_path : option string) :
  builder_loop E action (i :: rest) dev_path
  = if filtered_out dev_path i then builder_loop E action rest dev_path
    else match construct E action i with
         | Constructed d => push d (builder_loop E action rest dev_path)
         | Fails e => ([], Exited (error_exit E e))
         end.
Proof.
  unfold builder_loop, construct.
  destruct (on_devices action); cbn [andb receivers_loop
                                       receivers_and_devices_loop];
    destruct (filtered_out dev_path i); try reflexivity.
  destruct (create_receiver E i); reflexivity.
Qed.

(** While every record is harmless the builder yields the handles that
    were constructed, in order, and finishes. *)
Lemma builder_loop_harmless (E : env) (action : string)
  (dev_path : option string) (infos : list dev_info) :
  Forall (harmless E action dev_path) infos ->
  builder_loop E action infos dev_path
  = (constructed_handles E action dev_path infos, Finished).
Proof.
  induction 1 as [|i rest Hi _ IH].
  - unfold builder_loop. destruct (on_devices action); reflexivity.
  - rewrite builder_loop_cons, IH. cbn [constructed_handles flat_map].
    destruct (filtered_out dev_path i) eqn:F; [reflexivity|].
    destruct Hi as [Hi|[h Hi]]; [congruence|]. rewrite Hi.
    destruct h; reflexivity.
Qed.

(** At the first record whose construction raises, the builder leaves
    through [sys.exit] with the text of the exception; it has yielded the
    handles constructed before and goes no further. *)
Lemma builder_loop_fails (E : env) (action : string)
  (dev_path : option string) (before after : list dev_info)
  (d : dev_info) (msg : string) :
  Forall (harmless E action dev_path) before ->
  filtered_out dev_path d = false ->
  construct E action d = Fails msg ->
  builder_loop E action (before ++ d :: after) dev_path
  = (constructed_handles E action dev_path before,
     Exited (error_exit E msg)).
Proof.
  intros Hb Hf Hc. induction Hb as [|i rest Hi _ IH].
  - cbn [app]. rewrite builder_loop_cons, Hf, Hc. reflexivity.
  - change ((i :: rest) ++ d :: after)%list
      with (i :: (rest ++ d :: after))%list.
    rewrite builder_loop_cons, IH. cbn [constructed_handles flat_map].
    destruct (filtered_out dev_path i) eqn:F; [reflexivity|].
    destruct Hi as [Hi|[h Hi]]; [congruence|]. rewrite Hi.
    destruct h; reflexivity.
Qed.

Lemma build_builder (E : env) (action : string)
  (dev_path : option string) :
  build E action dev_path
  = list_of (builder_loop E action (enumeration E action) dev_path).
Proof.
  unfold build, builder_loop, enumeration, on_devices,
    _receivers_and_devices, _receivers.
  destruct (_ || _)%bool; reflexivity.
Qed.

Lemma builder_builder_loop (E : env) (action : string)
  (dev_path : option string) :
  builder E action dev_path
  = builder_loop E action (enumeration E action) dev_path.
Proof.
  unfold builder, builder_loop, enumeration,
    _receivers_and_devices, _receivers.
  destruct (on_devices action); reflexivity.
Qed.

(** Past the first block, [run] is its [try] block. *)
Lemma run_try_block (E : env) (cli_args : option (list string))
  (hidraw_path : option string) (action : string) (args : Namespace) :
  parse_stage E cli_args = inr (action, args) ->
  existsb (String.eqb action) actions = true ->
  run E cli_args hidraw_path
  = (EmptyString, try_block E action args hidraw_path).
Proof.
  intros Hp Ha. unfold run. rewrite Hp, Ha. reflexivity.
Qed.

(** C6.  When [run] gets as far as building the handle list, from
    receivers only or from receivers and devices and after the path
    filter, and the list is empty, it leaves through [sys.exit] with a
    text: the process ends with status 1 and the error stream holds the
    words No supported device found. *)
Theorem run_no_supported_device (E : env)
  (cli_args : option (list string)) (hidraw_path : option string)
  (action : string) (args : Namespace) :
  parse_stage E cli_args = inr (action, args) ->
  existsb (String.eqb action) actions = true ->
  build E action hidraw_path = inr [] ->
  run E cli_args hidraw_path
  = (EmptyString,
     SystemExit (error_exit E (format_exc E "Exception" no_device_message)))
  /\ exit_status (snd (run E cli_args hidraw_path)) = 1
  /\ contains "No supported device found"
              (error_stream (run E cli_args hidraw_path)) = true.
Proof.
  intros Hp Ha Hb.
  assert (R : run E cli_args hidraw_path
              = (EmptyString,
                 SystemExit (error_exit E (format_exc E "Exception"
                                                      no_device_message)))).
  { rewrite (run_try_block E cli_args hidraw_path action args Hp Ha).
    unfold try_block. rewrite Hb. reflexivity. }
  rewrite R. split; [reflexivity|]. split; [reflexivity|].
  unfold error_stream, error_exit, format_exc. cbn [fst snd].
  apply contains_app_r, contains_app_l.
  do 7 apply contains_app_r. apply contains_app_l. reflexivity.
Qed.

Lemma run_no_supported_device_witness :
  run bare_machine (Some ["show"]) None
  = (EmptyString,
     SystemExit (error_exit bare_machine
                   (format_exc bare_machine "Exception" no_device_message)))
  /\ exit_status (snd (run bare_machine (Some ["show"]) None)) = 1
  /\ contains "No supported device found"
              (error_stream (run bare_machine (Some ["show"]) None)) = true.
Proof.
  apply (run_no_supported_device bare_machine (Some ["show"]) None "show"
           [(D_device, Some "all"); (D_action, Some "show")]);
    reflexivity.
Defined.

(** C7.  Once [run] has its action, take the first record whose
    construction call ([create_receiver] or [create_device]) raises an
    exception.  The generator that serves the action, [_receivers] or
    [_receivers_and_devices], leaves there through [sys.exit] with the
    program name, the word error and the text of the exception; [run]
    ends with that same exit, so the process ends with status 1 and that
    text on the error stream, and no handle list is built.  When no
    construction raises, the list holds the handles that were constructed,
    in order: a record whose construction returns [None] adds nothing and
    is no error. *)
Theorem construction_failure_is_fatal (E : env)
  (cli_args : option (list string)) (hidraw_path : option string)
  (action : string) (args : Namespace) :
  parse_stage E cli_args = inr (action, args) ->
  existsb (String.eqb action) actions = true ->
  (forall before d after msg,
      enumeration E action = (before ++ d :: after)%list ->
      Forall (harmless E action hidraw_path) before ->
      filtered_out hidraw_path d = false ->
      construct E action d = Fails msg ->
      (if on_devices action then _receivers_and_devices E hidraw_path
       else _receivers E hidraw_path)
      = (constructed_handles E action hidraw_path before,
         Exited (Message (lower (NAME E) ++ ": error: " ++ msg)))
      /\ run E cli_args hidraw_path
         = (EmptyString,
            SystemExit (Message (lower (NAME E) ++ ": error: " ++ msg)))
      /\ exit_status (snd (run E cli_args hidraw_path)) = 1
      /\ error_stream (run E cli_args hidraw_path)
         = (lower (NAME E) ++ ": error: " ++ msg) ++ nl)
  /\ (Forall (harmless E action hidraw_path) (enumeration E action) ->
      build E action hidraw_path
      = inr (constructed_handles E action hidraw_path
               (enumeration E action))).
Proof.
  intros Hp Ha. split.
  - intros before d after msg He Hb Hf Hc.
    pose proof (builder_loop_fails E action hidraw_path before after d msg
                  Hb Hf Hc) as L.
    rewrite <- He, <- builder_builder_loop in L.
    assert (R : run E cli_args hidraw_path
                = (EmptyString,
                   SystemExit
                     (Message (lower (NAME E) ++ ": error: " ++ msg)))).
    { rewrite (run_try_block E cli_args hidraw_path action args Hp Ha).
      unfold try_block.
      rewrite build_builder, <- builder_builder_loop, L. reflexivity. }
    split; [exact L|]. rewrite R. repeat split.
  - intros H.
    rewrite build_builder, (builder_loop_harmless E action hidraw_path _ H).
    reflexivity.
Qed.

Ltac all_constructed :=
  repeat first
    [ apply Forall_nil
    | apply Forall_cons; [right; eexists; reflexivity|] ].

Lemma construction_failure_is_fatal_witness :
  (_receivers_and_devices machine None
   = ([H_receiver unifying],
      Exited (Message "solaar: error: Permission denied"))
   /\ run machine (Some ["show"]) None
      = (EmptyString, SystemExit (Message "solaar: error: Permission denied")))
  /\ build machine "pair" None = inr [H_receiver unifying].
Proof.
  split.
  - destruct (proj1 (construction_failure_is_fatal machine (Some ["show"])
                       None "show"
                       [(D_device, Some "all"); (D_action, Some "show")]
                       eq_refl eq_refl)
                [usb1; usb2] usb3 [] "Permission denied")
      as (G & R & _).
    + reflexivity.
    + all_constructed.
    + reflexivity.
    + reflexivity.
    + split; [exact G | exact R].
  - apply (proj2 (construction_failure_is_fatal machine (Some ["pair"])
                    None "pair"
                    [(D_device, Some "all"); (D_action, Some "show")]
                    eq_refl eq_refl)).
    all_constructed.
Defined.

(** C8.  When [run] is given no tokens ([None] or an empty list) and
    the parser returns a namespace, the test for the attribute cmd finds
    none, whatever the namespace holds and so also when it holds no
    action: [run] writes the usage text and the line too few arguments to
    the error stream and leaves with status 2. *)
Theorem run_empty_invocation (E : env) (cli_args : option (list string))
  (hidraw_path : option string) (args : Namespace) :
  cli_args = None \/ cli_args = Some [] ->
  parse_args E (sys_argv E) = Parsed args ->
  run E cli_args hidraw_path
  = (usage E ++ lower (NAME E) ++ ": error: too few arguments" ++ nl,
     SystemExit (Status 2))
  /\ exit_status (snd (run E cli_args hidraw_path)) = 2
  /\ prefix (usage E) (error_stream (run E cli_args hidraw_path)) = true.
Proof.
  intros Hc Hp.
  assert (R : run E cli_args hidraw_path
              = (usage E ++ lower (NAME E) ++ ": error: too few arguments"
                 ++ nl,
                 SystemExit (Status 2))).
  { unfold run, parse_stage.
    destruct Hc as [-> | ->]; rewrite Hp, cmd_not_in_namespace;
      reflexivity. }
  rewrite R. split; [reflexivity|]. split; [reflexivity|].
  unfold error_stream. cbn [fst snd].
  rewrite append_assoc. apply prefix_app.
Qed.

Lemma run_empty_invocation_witness :
  run machine None None
  = (usage machine ++ lower (NAME machine) ++ ": error: too few arguments"
     ++ nl,
     SystemExit (Status 2))
  /\ exit_status (snd (run machine None None)) = 2
  /\ prefix (usage machine) (error_stream (run machine None None)) = true.
Proof.
  apply (run_empty_invocation machine None None []).
  - left; reflexivity.
  - reflexivity.
Defined.

End Run.

(** ** Further properties of the resolver *)

Import Coverage.

Section ResolverCoverage.

Lemma pings_app (a b : list event) :
  pings (a ++ b) = (pings a ++ pings b)%list.
Proof.
  induction a as [|e a IH]; [reflexivity|].
  destruct e; simpl; rewrite IH; reflexivity.
Qed.

Lemma pings_scan (name : string) (devs : list Device) (count : Z) :
  pings (scan name devs count) = [].
Proof.
  revert count; induction devs as [|dev rest IH]; intros count;
    [reflexivity|].
  cbn [scan pings]. rewrite pings_app. cbn zeta.
  destruct (device_matches name dev); cbn [pings app];
    (destruct (count - 1 =? 0); [reflexivity | apply IH]).
Qed.

Lemma pings_for_body (number : option Z) (name : string) (h : handle) :
  pings (for_body number name h)
  = match h with
    | H_receiver _ => []
    | H_device d => [d]
    end.
Proof.
  destruct h as [r|d]; cbn [for_body].
  - rewrite pings_app. cbn [pings]. rewrite pings_scan, app_nil_r.
    destruct number as [n|]; [|reflexivity].
    destruct (number_truthy (Some n)); [|reflexivity].
    cbn [pings]. destruct (r_getitem r n); reflexivity.
  - cbn [pings]. rewrite pings_scan. reflexivity.
Qed.

Lemma pings_flat_map (A : Type) (f : A -> list event) (l : list A) :
  pings (flat_map f l) = flat_map (fun x => pings (f x)) l.
Proof.
  induction l as [|x l IH]; simpl; [reflexivity|].
  rewrite pings_app, IH. reflexivity.
Qed.

Lemma in_pings (d : Device) (t : list event) :
  In (Ping d) t -> In d (pings t).
Proof.
  induction t as [|e t IH]; [tauto|].
  intros [H|H].
  - subst e. left; reflexivity.
  - destruct e; simpl; auto.
Qed.

(** The slot part of what the body yields is what the token says. *)
Lemma slot_part_hit (name : string) (number : option Z) (h : handle) :
  slot_number name = inr number ->
  match h, number with
  | H_receiver r, Some n =>
      if number_truthy number
      then match r_getitem r n with Some dev => [dev] | None => [] end
      else []
  | _, _ => []
  end = slot_hit name h.
Proof.
  unfold slot_number, slot_hit. intros H.
  destruct h as [r|d]; [|destruct number; reflexivity].
  destruct name as [|c [|c' s]];
    try (injection H as <-; reflexivity).
  destruct (int_of_char c) as [m|] eqn:E;
    [|injection H as <-; reflexivity].
  pose proof (int_of_char_range _ _ E) as R.
  destruct (Z.ltb_spec m 0); [lia|].
  destruct (Z.gtb_spec m 6).
  - injection H as <-.
    destruct (Z.leb_spec m 6); [lia|]. rewrite andb_false_r. reflexivity.
  - injection H as <-. cbn [number_truthy].
    destruct (Z.leb_spec m 6); [|lia]. rewrite andb_true_r.
    destruct (Z.eqb_spec m 0); destruct (Z.leb_spec 1 m);
      try lia; reflexivity.
Qed.

(** What the generator yields, entry by entry. *)
Lemma find_device_yields_by_entry (receivers : list handle)
  (name : string) :
  truthy name = true ->
  yields (fst (_find_device receivers name))
  = flat_map (fun h => slot_hit name h
                       ++ filter (device_matches name) (scanned h))%list
             receivers.
Proof.
  intros Hn. destruct receivers as [|h rest]; [reflexivity|].
  destruct (find_device_runs (h :: rest) name) as (number & E & R);
    [discriminate | exact Hn |].
  rewrite R. cbn [fst]. rewrite yields_flat_map.
  apply flat_map_ext. intros x.
  rewrite for_body_yields, (slot_part_hit name number x E). reflexivity.
Qed.

Lemma in_break_cons (dev : Device) (b : bool) (rest : list event) :
  In Break (Examine dev :: (if b then [Yield dev] else []) ++ rest)
  <-> In Break rest.
Proof.
  split.
  - intros [H|H]; [discriminate|].
    apply in_app_or in H. destruct H as [H|H]; [|exact H].
    destruct b; simpl in H;
      [destruct H as [H|[]]; discriminate | contradiction].
  - intros H. right. apply in_or_app. right. exact H.
Qed.

(** The pings of a run are the directly connected devices of the list. *)
Lemma pings_find_device (receivers : list handle) (name : string) :
  truthy name = true ->
  pings (fst (_find_device receivers name)) = wired receivers.
Proof.
  intros Hn. destruct receivers as [|h rest]; [reflexivity|].
  destruct (find_device_runs (h :: rest) name) as (number & _ & R);
    [discriminate | exact Hn |].
  rewrite R. cbn [fst]. rewrite pings_flat_map. unfold wired.
  apply flat_map_ext. intros x. apply pings_for_body.
Qed.

(** X1.  [_find_device] raises only on an empty list or an empty token,
    and then before it touches any handle: the third assertion, on a
    negative slot number, can never fail.  In every other case it runs to
    the end and returns. *)
Theorem find_device_raises_only_on_empty (receivers : list handle)
  (name : string) :
  (snd (_find_device receivers name) = Returned
   <-> receivers <> [] /\ name <> EmptyString)
  /\ (snd (_find_device receivers name) <> Returned ->
      fst (_find_device receivers name) = []).
Proof.
  destruct receivers as [|h rest].
  { split; [|reflexivity]. split; [discriminate | intros [H _]; now elim H]. }
  destruct name as [|c s].
  { split; [|reflexivity]. split; [discriminate | intros [_ H]; now elim H]. }
  destruct (find_device_runs (h :: rest) (String c s)) as (number & _ & R);
    [discriminate | reflexivity |].
  rewrite R. split.
  - split; [intros _; split; discriminate | reflexivity].
  - intros H. now elim H.
Qed.

(** X2.  For a non-empty token, what [_find_device] yields is, entry by
    entry of the list and in this order: the device in slot [n] of the
    entry when the entry is a receiver and the token is the one digit [n]
    of 1..6, then the devices the scan of the entry reaches that match the
    token.  Nothing else is yielded, and nothing of this is left out. *)
Theorem find_device_output (receivers : list handle) (name : string) :
  truthy name = true ->
  yields (fst (_find_device receivers name))
  = flat_map (fun h => slot_hit name h
                       ++ filter (device_matches name) (scanned h))%list
             receivers.
Proof. exact (find_device_yields_by_entry receivers name). Qed.

Lemma find_device_output_witness :
  yields (fst (_find_device [H_receiver overfull; H_device k400] "2"))
  = flat_map (fun h => slot_hit "2" h
                       ++ filter (device_matches "2") (scanned h))%list
             [H_receiver overfull; H_device k400].
Proof.
  apply (find_device_output [H_receiver overfull; H_device k400] "2").
  reflexivity.
Defined.

(** X3.  A run of [_find_device] with a non-empty token pings every
    directly connected device of the list once, in the order of the list
    and whether or not it matches, and pings nothing else: no receiver and
    no device paired with one. *)
Theorem find_device_pings_wired (receivers : list handle) (name : string) :
  truthy name = true ->
  pings (fst (_find_device receivers name)) = wired receivers.
Proof. exact (pings_find_device receivers name). Qed.

Lemma find_device_pings_wired_witness :
  pings (fst (_find_device [H_device m330; H_receiver unifying; H_device k400]
                           "k400"))
  = wired [H_device m330; H_receiver unifying; H_device k400].
Proof.
  apply (find_device_pings_wired
           [H_device m330; H_receiver unifying; H_device k400] "k400").
  reflexivity.
Defined.

(** X4.  A scan started with the counter at [count] over an iteration of
    [len] devices examines [min count len] of them when [count] is at least
    1, and all [len] otherwise; it leaves through the [break] exactly when
    [1 <= count <= len]. *)
Theorem scan_bound (name : string) (devs : list Device) (count : Z) :
  List.length (examined (scan name devs count))
  = (if 1 <=? count
     then Nat.min (Z.to_nat count) (List.length devs)
     else List.length devs)
  /\ (In Break (scan name devs count)
      <-> 1 <= count <= Z.of_nat (List.length devs)).
Proof.
  split.
  - rewrite scan_examined. unfold scanned_prefix.
    destruct (1 <=? count); [apply length_firstn | reflexivity].
  - revert count. induction devs as [|dev rest IH]; intros count.
    + simpl. split; [tauto | lia].
    + cbn [scan]. cbn zeta. rewrite in_break_cons.
      cbn [List.length]. rewrite Nat2Z.inj_succ.
      destruct (Z.eqb_spec (count - 1) 0) as [E|E].
      * split; [intros _; lia | intros _; left; reflexivity].
      * rewrite (IH (count - 1)). lia.
Qed.

Lemma scanned_consistent (h : handle) :
  consistent h -> scanned h = all_devices h.
Proof.
  destruct h as [r|d]; [|reflexivity].
  cbn [consistent scanned all_devices]. intros ->.
  unfold scanned_prefix. destruct (1 <=? _); [|reflexivity].
  rewrite Nat2Z.id. apply firstn_all.
Qed.

(** X5.  When every receiver of the list reports as [count()] the number
    of devices its iteration produces, the count takes nothing away: for a
    non-empty token [_find_device] yields, entry by entry, the slot device
    if the token is a slot number, then every device of the entry that
    matches the token. *)
Theorem find_device_consistent_counts (receivers : list handle)
  (name : string) :
  Forall consistent receivers ->
  truthy name = true ->
  yields (fst (_find_device receivers name))
  = flat_map (fun h => slot_hit name h
                       ++ filter (device_matches name) (all_devices h))%list
             receivers.
Proof.
  intros Hc Hn. rewrite (find_device_yields_by_entry receivers name Hn).
  induction Hc as [|h rest Hh _ IH]; [reflexivity|].
  cbn [flat_map]. rewrite IH, (scanned_consistent h Hh). reflexivity.
Qed.

Lemma find_device_consistent_counts_witness :
  yields (fst (_find_device [H_receiver unifying; H_device k400] "mouse"))
  = flat_map (fun h => slot_hit "mouse" h
                       ++ filter (device_matches "mouse") (all_devices h))%list
             [H_receiver unifying; H_device k400].
Proof.
  apply (find_device_consistent_counts
           [H_receiver unifying; H_device k400] "mouse").
  - repeat constructor.
  - reflexivity.
Defined.

(** [str.lower] leaves what it produces unchanged. *)
Lemma lower_char_idem (c : ascii) : lower_char (lower_char c) = lower_char c.
Proof. destruct c as [[] [] [] [] [] [] [] []]; reflexivity. Qed.

Lemma digit_not_upper (c : ascii) (n : Z) :
  int_of_char c = Some n -> is_upper c = false.
Proof.
  destruct c as [[] [] [] [] [] [] [] []];
    first [reflexivity | discriminate].
Qed.

Lemma chars_app (a b : string) :
  list_ascii_of_string (a ++ b)
  = (list_ascii_of_string a ++ list_ascii_of_string b)%list.
Proof. induction a as [|c a IH]; simpl; [|rewrite IH]; reflexivity. Qed.

Lemma lower_no_upper (s : string) : has_upper (lower s) = false.
Proof.
  unfold has_upper. induction s as [|c s IH]; [reflexivity|].
  cbn [lower list_ascii_of_string existsb]. rewrite IH, orb_false_r.
  unfold is_upper. rewrite lower_char_idem, Ascii.eqb_refl. reflexivity.
Qed.

Lemma contains_no_upper (a b : string) :
  contains a b = true -> has_upper b = false -> has_upper a = false.
Proof.
  intros H. apply contains_spec in H. destruct H as (p & q & ->).
  unfold has_upper. rewrite !chars_app, !existsb_app.
  intros U. apply orb_false_iff in U. destruct U as [_ U].
  apply orb_false_iff in U. tauto.
Qed.

(** A token with an upper-case letter occurs in no lowered text and
    equals none. *)
Lemma upper_token_no_match (name text : string) :
  has_upper name = true ->
  contains name (lower text) = false
  /\ (name =? lower text)%string = false.
Proof.
  intros U. split.
  - destruct (contains name (lower text)) eqn:C; [|reflexivity].
    rewrite (contains_no_upper _ _ C (lower_no_upper text)) in U.
    discriminate.
  - destruct (String.eqb_spec name (lower text)) as [->|]; [|reflexivity].
    rewrite lower_no_upper in U. discriminate.
Qed.

Lemma has_upper_truthy (name : string) :
  has_upper name = true -> truthy name = true.
Proof. destruct name; [discriminate | reflexivity]. Qed.

(** X6.  [_find_receiver] compares the token as it is given with the
    lowered name and serial, so a token that holds an upper-case letter
    finds nothing: on a non-empty list the result is [None], whatever the
    receivers are called. *)
Theorem find_receiver_upper_case_token (receivers : list handle)
  (name : string) :
  has_upper name = true ->
  receivers <> [] ->
  _find_receiver receivers name = inr None.
Proof.
  intros U Hr. destruct receivers as [|r rest]; [contradiction|].
  unfold _find_receiver. rewrite (has_upper_truthy name U). cbn [negb].
  f_equal. generalize (r :: rest). intros l.
  induction l as [|x l IH]; [reflexivity|].
  cbn [find_receiver_loop]. unfold receiver_matches.
  rewrite (proj1 (upper_token_no_match name (h_name x) U)).
  destruct (h_serial x) as [sn|]; [|exact IH].
  rewrite (proj2 (upper_token_no_match name sn U)). exact IH.
Qed.

Lemma find_receiver_upper_case_token_witness :
  _find_receiver [H_receiver unifying; H_receiver zero_count] "Bolt"
  = inr None.
Proof.
  apply (find_receiver_upper_case_token
           [H_receiver unifying; H_receiver zero_count] "Bolt").
  - reflexivity.
  - discriminate.
Defined.

(** X7.  [_find_device] too compares the token as it is given: a token
    that holds an upper-case letter is no slot number and matches no
    serial, codename, kind or name, so the generator yields nothing. *)
Theorem find_device_upper_case_token (receivers : list handle)
  (name : string) :
  has_upper name = true ->
  yields (fst (_find_device receivers name)) = [].
Proof.
  intros U.
  rewrite (find_device_yields_by_entry receivers name
             (has_upper_truthy name U)).
  induction receivers as [|h rest IH]; [reflexivity|].
  cbn [flat_map]. rewrite IH, app_nil_r.
  assert (S : slot_hit name h = []).
  { unfold slot_hit. destruct h as [r|d]; [|reflexivity].
    destruct name as [|c [|c' s]]; try reflexivity.
    destruct (int_of_char c) as [n|] eqn:E; [|reflexivity].
    unfold has_upper in U. cbn in U.
    rewrite (digit_not_upper c n E) in U. discriminate. }
  rewrite S. cbn [app].
  induction (scanned h) as [|d l IHl]; [reflexivity|].
  cbn [filter]. unfold device_matches at 1.
  rewrite (proj2 (upper_token_no_match name (d_serial d) U)),
    (proj2 (upper_token_no_match name (d_codename d) U)),
    (proj2 (upper_token_no_match name (d_kind d) U)),
    (proj1 (upper_token_no_match name (d_name d) U)).
  exact IHl.
Qed.

Lemma find_device_upper_case_token_witness :
  yields (fst (_find_device [H_receiver unifying; H_device k400] "K400"))
  = [].
Proof.
  apply (find_device_upper_case_token
           [H_receiver unifying; H_device k400] "K400").
  reflexivity.
Defined.

(** X8.  When [_find_receiver] returns a directly connected device of
    the list, [_find_device] called with the same list and token yields
    that device: the test of the first is part of the test of the
    second. *)
Theorem find_receiver_device_is_yielded (receivers : list handle)
  (name : string) (d : Device) :
  _find_receiver receivers name = inr (Some (H_device d)) ->
  In d (yields (fst (_find_device receivers name))).
Proof.
  intros H.
  assert (L : find_receiver_loop receivers name = Some (H_device d)
              /\ truthy name = true).
  { unfold _find_receiver in H.
    destruct receivers as [|r rest]; [discriminate|].
    destruct (truthy name); [|discriminate].
    cbn [negb] in H. split; [congruence | reflexivity]. }
  destruct L as [L Hn].
  pose proof (find_receiver_loop_first receivers name) as F.
  rewrite L in F. destruct F as (before & after & E & _ & M).
  rewrite (find_device_yields_by_entry receivers name Hn).
  apply in_flat_map. exists (H_device d). split.
  - rewrite E. apply in_or_app. right. left. reflexivity.
  - apply in_or_app. right. cbn [scanned filter].
    replace (device_matches name d) with true; [left; reflexivity|].
    symmetry. unfold receiver_matches in M. cbn [h_name h_serial] in M.
    unfold device_matches.
    apply orb_true_iff in M. destruct M as [M|M]; rewrite M.
    + apply orb_true_r.
    + reflexivity.
Qed.

Lemma find_receiver_device_is_yielded_witness :
  In k400
     (yields (fst (_find_device [H_receiver unifying; H_device k400]
                                "keyboard"))).
Proof.
  apply (find_receiver_device_is_yielded
           [H_receiver unifying; H_device k400] "keyboard" k400).
  reflexivity.
Defined.

End ResolverCoverage.

(** ** Further properties of the handle builders and of [run] *)

Section RunCoverage.




Lemma builder_loop_all_filtered (E : env) (action : string)
  (infos : list dev_info) (dev_path : option string) :
  Forall (fun i => filtered_out dev_path i = true) infos ->
  builder_loop E action infos dev_path = ([], Finished).
Proof.
  induction 1 as [|i rest Hi _ IH].
  - unfold builder_loop. destruct (on_devices action); reflexivity.
  - rewrite builder_loop_cons, Hi. exact IH.
Qed.

Lemma receivers_loop_wired (E : env) (infos : list dev_info)
  (dev_path : option string) :
  Forall (fun h => isDevice h = false) (fst (receivers_loop E infos dev_path))
  /\ wired (fst (receivers_loop E infos dev_path)) = [].
Proof.
  induction infos as [|i rest [IH1 IH2]]; [split; [constructor|reflexivity]|].
  cbn [receivers_loop]. destruct (filtered_out dev_path i); [tauto|].
  destruct (create_receiver E i) as [[r|]|e]; cbn [option_map push fst].
  - split; [constructor; [reflexivity | exact IH1] | exact IH2].
  - tauto.
  - split; [constructor | reflexivity].
Qed.

(** How the first block of [run] can end the call. *)
Lemma parse_stage_stops (E : env) (cli_args : option (list string))
  (r : result) :
  parse_stage E cli_args = inl r ->
  (exists tokens err code,
      parse_args E tokens = ParserExit err code /\ snd r = SystemExit code)
  \/ snd r = SystemExit (Status 2)
  \/ snd r = Uncaught "AttributeError".
Proof.
  unfold parse_stage. intros H.
  destruct cli_args as [[|action rest]|].
  - destruct (parse_args E (sys_argv E)) as [args|err code] eqn:P.
    + destruct (ns_in "cmd" args); cbn [negb] in H.
      * destruct (ns_action args); [discriminate|].
        injection H as <-. right; right; reflexivity.
      * injection H as <-. right; left; reflexivity.
    + injection H as <-. left. exists (sys_argv E), err, code. auto.
  - destruct (parse_args E (action :: rest)) as [args|err code] eqn:P;
      [discriminate|].
    injection H as <-. left. exists (action :: rest), err, code. auto.
  - destruct (parse_args E (sys_argv E)) as [args|err code] eqn:P.
    + destruct (ns_in "cmd" args); cbn [negb] in H.
      * destruct (ns_action args); [discriminate|].
        injection H as <-. right; right; reflexivity.
      * injection H as <-. right; left; reflexivity.
    + injection H as <-. left. exists (sys_argv E), err, code. auto.
Qed.

(** X9.  Giving a builder the path [p] is the same as giving it, with no
    path, only the records of that path: a record with another path is
    passed over before any construction call, so it adds no handle and
    cannot end the process, whatever its construction would do. *)
Theorem path_filter_is_prefilter (E : env) (p : string)
  (infos : list dev_info) :
  receivers_loop E infos (Some p) = receivers_loop E (on_path p infos) None
  /\ receivers_and_devices_loop E infos (Some p)
     = receivers_and_devices_loop E (on_path p infos) None.
Proof.
  induction infos as [|i rest [IH1 IH2]]; [split; reflexivity|].
  cbn [receivers_loop receivers_and_devices_loop on_path filter filtered_out].
  fold (on_path p rest).
  destruct (p =? path i)%string; cbn [negb].
  - cbn [receivers_loop receivers_and_devices_loop filtered_out].
    rewrite IH1, IH2. split; reflexivity.
  - split; assumption.
Qed.

(** X10.  The list [_receivers] builds, the one the actions pair and
    unpair work on, holds receivers only; a run of [_find_device] over it
    therefore pings nothing. *)
Theorem receivers_only_never_pings (E : env) (dev_path : option string)
  (name : string) :
  Forall (fun h => isDevice h = false) (fst (_receivers E dev_path))
  /\ pings (fst (_find_device (fst (_receivers E dev_path)) name)) = [].
Proof.
  unfold _receivers.
  destruct (receivers_loop_wired E (base_receivers E) dev_path) as [F W].
  split; [exact F|].
  destruct (truthy name) eqn:Hn.
  - rewrite (pings_find_device _ name Hn). exact W.
  - unfold _find_device.
    destruct (fst (receivers_loop E (base_receivers E) dev_path));
      [reflexivity|].
    rewrite Hn. reflexivity.
Qed.

(** X11.  [run] returns normally exactly when its first block gives an
    action of the six, the handle list is built and is not empty, and the
    action module, given that list and the parsed arguments, returns.  In
    particular the action module is never run on an empty list or for an
    unknown action. *)
Theorem run_returns_iff (E : env) (cli_args : option (list string))
  (hidraw_path : option string) :
  snd (run E cli_args hidraw_path) = Returns
  <-> exists action args c,
        parse_stage E cli_args = inr (action, args)
        /\ existsb (String.eqb action) actions = true
        /\ build E action hidraw_path = inr c
        /\ c <> []
        /\ action_run E action c args = ActionReturns.
Proof.
  split.
  - unfold run.
    destruct (parse_stage E cli_args) as [r|[action args]] eqn:P.
    + intros H.
      destruct (parse_stage_stops E cli_args r P)
        as [(t & e & c & _ & S)|[S|S]]; rewrite S in H; discriminate.
    + destruct (existsb (String.eqb action) actions) eqn:A;
        cbn [negb snd]; [|discriminate].
      unfold try_block.
      destruct (build E action hidraw_path) as [code|c] eqn:B;
        [discriminate|].
      destruct c as [|h rest]; [discriminate|].
      destruct (action_run E action (h :: rest) args) eqn:R;
        try discriminate.
      intros _. exists action, args, (h :: rest).
      repeat split; try assumption. discriminate.
  - intros (action & args & c & P & A & B & Hc & R).
    rewrite (run_try_block E cli_args hidraw_path action args P A).
    cbn [snd]. unfold try_block. rewrite B.
    destruct c as [|h rest]; [contradiction|]. rewrite R. reflexivity.
Qed.

(** X12.  When no record of the enumeration has the path given to [run],
    the handle list is empty and [run] ends with the error exit for no
    supported device, without any construction call deciding it. *)
Theorem run_unknown_path (E : env) (cli_args : option (list string))
  (p : string) (action : string) (args : Namespace) :
  parse_stage E cli_args = inr (action, args) ->
  existsb (String.eqb action) actions = true ->
  Forall (fun i => path i <> p) (enumeration E action) ->
  run E cli_args (Some p)
  = (EmptyString,
     SystemExit (error_exit E (format_exc E "Exception" no_device_message))).
Proof.
  intros P A F.
  rewrite (run_try_block E cli_args (Some p) action args P A).
  unfold try_block. rewrite build_builder, builder_loop_all_filtered.
  - reflexivity.
  - eapply Forall_impl; [|exact F]. intros i Hi. cbn [filtered_out].
    destruct (String.eqb_spec p (path i)) as [->|]; [now elim Hi|].
    reflexivity.
Qed.

Lemma run_unknown_path_witness :
  run machine (Some ["show"]) (Some "/dev/hidraw9")
  = (EmptyString,
     SystemExit
       (error_exit machine
          (format_exc machine "Exception" no_device_message))).
Proof.
  apply (run_unknown_path machine (Some ["show"]) "/dev/hidraw9" "show"
           [(D_device, Some "all"); (D_action, Some "show")]).
  - reflexivity.
  - reflexivity.
  - repeat (apply Forall_cons; [discriminate|]). apply Forall_nil.
Defined.





End RunCoverage.
